(** * create_comparison.py: the comparison composer

    A shallow embedding of [src/create_comparison.py].  The script opens two
    screenshots, allocates a white canvas, writes four caption lines and two
    header lines on it, pastes both screenshots, saves the canvas and prints
    one line.  Everything happens inside one [try]/[except Exception].

    The imaging library is modelled at the level the script uses it:
    - an image has a size that is known as soon as the file is opened and
      pixel data that is decoded when first needed (here: by [paste]);
    - a canvas remembers what was drawn on it, in order, and is turned into
      pixels when it is saved;
    - pasting clips the source to the destination.

    The file system, the read-only paths and the lines printed so far form
    the [World] that the script transforms. *)

From stdpp Require Import gmap strings list fin_maps.
From Stdlib Require Import ZArith Lia Sorted.

Open Scope Z_scope.

(** ** Colours and pixels *)

Definition pixel : Type := Z * Z * Z.

(** The colour names the script passes to the library. *)
Inductive color := white | black | gray | green | red.

Definition getrgb (c : color) : pixel :=
  match c with
  | white => (255, 255, 255)
  | black => (0, 0, 0)
  | gray => (128, 128, 128)
  | green => (0, 128, 0)
  | red => (255, 0, 0)
  end.

(** ** Images, fonts, files *)

(** The pixel stream of an image file: either it decodes, or the decoder
    gives up with a complaint. *)
Inductive pixels :=
| Decoded (src : Z → Z → pixel)
| Damaged (why : string).

(** What [Image.open] hands back: the size read from the header, and the
    pixel stream behind it, which is decoded on first use. *)
Record Image := mkImage {
  width : Z;
  height : Z;
  data : pixels
}.

Inductive Font :=
| FreeTypeFont (path : string) (size : Z)
| DefaultFont.

Inductive file :=
| ImageFile (im : Image)
| FontFile
| OtherFile.

(** ** Exceptions *)

Inductive exn_class :=
| FileNotFoundError
| UnidentifiedImageError
| OSError
| PermissionError
| KeyboardInterrupt.

Record Exn := mkExn { cls : exn_class; message : string }.

(** [except Exception] lets through what only derives from
    [BaseException]. *)
Definition is_Exception (e : Exn) : bool :=
  match cls e with
  | KeyboardInterrupt => false
  | _ => true
  end.

Definition str (e : Exn) : string := message e.

(** ** The world and the monad of the script *)

Record World := mkWorld {
  files : gmap string file;
  readonly : gset string;
  stdout : list string
}.

Inductive result (A : Type) :=
| Ok (a : A)
| Raised (e : Exn).
Arguments Ok {A} a.
Arguments Raised {A} e.

Definition M (A : Type) : Type := World → result A * World.

#[global] Instance M_ret : MRet M := λ A a w, (Ok a, w).

#[global] Instance M_bind : MBind M := λ A B k m w,
  match m w with
  | (Ok a, w') => k a w'
  | (Raised e, w') => (Raised e, w')
  end.

Definition raise {A : Type} (e : Exn) : M A := λ w, (Raised e, w).

(** [try: body except <filter> as e: handler e].  What the body did to the
    world before it raised stays done. *)
Definition try_except {A : Type} (body : M A) (catches : Exn → bool)
    (handler : Exn → M A) : M A := λ w,
  match body w with
  | (Ok a, w') => (Ok a, w')
  | (Raised e, w') => if catches e then handler e w' else (Raised e, w')
  end.

Definition print (line : string) : M unit := λ w,
  (Ok tt, mkWorld (files w) (readonly w) (stdout w ++ [line])).

(** ** The canvas *)

Inductive draw_op :=
| DrawText (xy : Z * Z) (text : string) (fill : color) (font : Font)
| Paste (im : Image) (box : Z * Z).

Record Canvas := mkCanvas {
  cwidth : Z;
  cheight : Z;
  background : color;
  ops : list draw_op
}.

Definition Image_new (size : Z * Z) (bg : color) : Canvas :=
  mkCanvas (fst size) (snd size) bg [].

Definition draw_text (c : Canvas) (xy : Z * Z) (text : string)
    (fill : color) (font : Font) : Canvas :=
  mkCanvas (cwidth c) (cheight c) (background c)
    (ops c ++ [DrawText xy text fill font]).

(** ** Library calls that can raise *)

Definition Image_open (path : string) : M Image := λ w,
  match files w !! path with
  | None =>
      raise (mkExn FileNotFoundError
        ("[Errno 2] No such file or directory: '" +:+ path +:+ "'")) w
  | Some (ImageFile im) => (Ok im, w)
  | Some _ =>
      raise (mkExn UnidentifiedImageError
        ("cannot identify image file '" +:+ path +:+ "'")) w
  end.

Definition truetype (path : string) (size : Z) : M Font := λ w,
  match files w !! path with
  | Some FontFile => (Ok (FreeTypeFont path size), w)
  | _ => raise (mkExn OSError "cannot open resource") w
  end.

Definition load_default : M Font := mret DefaultFont.

(** [paste] is the first use of the source's pixels, so this is where a
    damaged stream shows. *)
Definition paste (c : Canvas) (im : Image) (box : Z * Z) : M Canvas :=
  match data im with
  | Damaged why => raise (mkExn OSError why)
  | Decoded _ =>
      mret (mkCanvas (cwidth c) (cheight c) (background c)
              (ops c ++ [Paste im box]))
  end.

(** ** From a canvas to pixels *)

Definition inside (w h x y i j : Z) : bool :=
  (x <=? i) && (i <? x + w) && (y <=? j) && (j <? y + h).

Section Rendering.

(** Which pixels a line of text covers, relative to its anchor.  It
    depends on the typeface and is left open. *)
Variable text_mask : Font → string → Z → Z → bool.

Definition paint (o : draw_op) (under : Z → Z → pixel) : Z → Z → pixel :=
  match o with
  | DrawText xy text fill font => λ i j,
      if text_mask font text (i - fst xy) (j - snd xy)
      then getrgb fill else under i j
  | Paste im box =>
      match data im with
      | Decoded src => λ i j,
          if inside (width im) (height im) (fst box) (snd box) i j
          then src (i - fst box) (j - snd box) else under i j
      | Damaged _ => under
      end
  end.

Definition raster_ops (l : list draw_op) (bg : Z → Z → pixel)
    : Z → Z → pixel :=
  fold_left (λ acc o, paint o acc) l bg.

(** The pixels of the canvas; outside the canvas nothing is kept. *)
Definition raster (c : Canvas) : Z → Z → pixel := λ i j,
  if inside (cwidth c) (cheight c) 0 0 i j
  then raster_ops (ops c) (λ _ _, getrgb (background c)) i j
  else (0, 0, 0).

Definition encode (c : Canvas) : Image :=
  mkImage (cwidth c) (cheight c) (Decoded (raster c)).

Definition save (c : Canvas) (path : string) : M unit := λ w,
  if decide (path ∈ readonly w)
  then raise (mkExn PermissionError
         ("[Errno 13] Permission denied: '" +:+ path +:+ "'")) w
  else (Ok tt, mkWorld (<[path := ImageFile (encode c)]> (files w))
                 (readonly w) (stdout w)).

End Rendering.

Definition getpixel (im : Image) (i j : Z) : option pixel :=
  match data im with
  | Decoded src => if inside (width im) (height im) 0 0 i j
                   then Some (src i j) else None
  | Damaged _ => None
  end.

(** ** The script *)

Definition valid_path : string :=
  "/tmp/playwright-logs/valid-error-validation.png".
Definition invalid_path : string :=
  "/tmp/playwright-logs/invalid-error-validation.png".
Definition comparison_path : string :=
  "/tmp/playwright-logs/error-validation-comparison.png".
Definition bold_font_path : string :=
  "/usr/share/fonts/truetype/dejavu/DejaVuSans-Bold.ttf".
Definition regular_font_path : string :=
  "/usr/share/fonts/truetype/dejavu/DejaVuSans.ttf".

Definition title : string :=
  "JSON:API Error Object Structure Validation - UI Demo".
Definition subtitle : string :=
  "Comprehensive validation of error responses per JSON:API v1.1 specification".
Definition valid_caption : string :=
  "✅ VALID Error Response (404 Not Found)".
Definition valid_note : string :=
  "Shows detailed validation of all error object members".
Definition invalid_caption : string :=
  "❌ INVALID Error Response (String instead of Object)".
Definition invalid_note : string :=
  "Correctly detects and reports error object structure violations".

(** Lines 22-27: the inner [try] with its bare [except]. *)
Definition load_fonts : M (Font * Font) :=
  try_except
    (font_large ← truetype bold_font_path 24;
     font_small ← truetype regular_font_path 16;
     mret (font_large, font_small))
    (λ _, true)
    (λ _,
     font_large ← load_default;
     font_small ← load_default;
     mret (font_large, font_small)).

(** Lines 8-53: everything between [try:] and the save. *)
Definition render_comparison : M Canvas :=
  valid_img ← Image_open valid_path;
  invalid_img ← Image_open invalid_path;
  let width_ := Z.max (width valid_img) (width invalid_img) in
  let height_ := height valid_img + height invalid_img + 120 in
  let comparison := Image_new (width_, height_) white in
  fonts ← load_fonts;
  let font_large := fst fonts in
  let font_small := snd fonts in
  let comparison := draw_text comparison (20, 20) title black font_large in
  let comparison := draw_text comparison (20, 50) subtitle gray font_small in
  let y_offset := 80 in
  let comparison :=
    draw_text comparison (20, y_offset) valid_caption green font_small in
  let comparison :=
    draw_text comparison (20, y_offset + 20) valid_note gray font_small in
  comparison ← paste comparison valid_img (0, y_offset + 50);
  let y_offset := y_offset + 50 + height valid_img + 20 in
  let comparison :=
    draw_text comparison (20, y_offset) invalid_caption red font_small in
  let comparison :=
    draw_text comparison (20, y_offset + 20) invalid_note gray font_small in
  comparison ← paste comparison invalid_img (0, y_offset + 50);
  mret comparison.

Section Script.

Variable text_mask : Font → string → Z → Z → bool.

(** Lines 5-63. *)
Definition create_comparison_image : M (option string) :=
  try_except
    (comparison ← render_comparison;
     save text_mask comparison comparison_path;;
     print ("Comparison image created: " +:+ comparison_path);;
     mret (Some comparison_path))
    is_Exception
    (λ e,
     print ("Error creating comparison: " +:+ str e);;
     mret None).

(** Lines 65-66: the entry point drops the value; an exception that
    reaches it ends the process with a traceback and status 1. *)
Definition main (w : World) : Z * World :=
  match create_comparison_image w with
  | (Ok _, w') => (0, w')
  | (Raised _, w') => (1, w')
  end.

End Script.

(** ** Vocabulary for the statements *)

(** The file at [path] opens as [im] and its pixel stream decodes. *)
Definition decodable (w : World) (path : string) (im : Image) : Prop :=
  files w !! path = Some (ImageFile im) ∧ ∃ src, data im = Decoded src.

(** The same as a test, without naming the image. *)
Definition decodes (w : World) (path : string) : bool :=
  match files w !! path with
  | Some (ImageFile im) =>
      match data im with Decoded _ => true | Damaged _ => false end
  | _ => false
  end.

Definition has_font (w : World) (path : string) : bool :=
  match files w !! path with
  | Some FontFile => true
  | _ => false
  end.

(** Is the rectangle of [im] pasted at [box] inside the canvas? *)
Definition fits (c : Canvas) (im : Image) (box : Z * Z) : bool :=
  (0 <=? fst box) && (fst box + width im <=? cwidth c) &&
  (0 <=? snd box) && (snd box + height im <=? cheight c).

(** The world with the file at [path] replaced. *)
Definition with_file (w : World) (path : string) (f : file) : World :=
  mkWorld (<[path := f]> (files w)) (readonly w) (stdout w).

(** The vertical anchor of a drawing step. *)
Definition op_y (o : draw_op) : Z :=
  match o with
  | DrawText xy _ _ _ => snd xy
  | Paste _ box => snd box
  end.

(** ** Two screenshots of 400x300 and 400x500 *)

Definition shot_A : Image :=
  mkImage 400 300 (Decoded (λ i j, (i mod 256, j mod 256, 0))).
Definition shot_B : Image :=
  mkImage 400 500 (Decoded (λ i j, (0, i mod 256, j mod 256))).

Definition no_ink : Font → string → Z → Z → bool := λ _ _ _ _, false.

(** Both screenshots in place, no fonts installed, nothing printed yet. *)
Definition demo_world : World :=
  mkWorld (<[valid_path := ImageFile shot_A]>
             (<[invalid_path := ImageFile shot_B]> ∅)) ∅ [].

(** The same without the second screenshot. *)
Definition world_missing_B : World :=
  mkWorld (<[valid_path := ImageFile shot_A]> ∅) ∅ [].

(** The first screenshot replaced by a file that is no image. *)
Definition world_unsupported_A : World :=
  with_file demo_world valid_path OtherFile.

(** The second screenshot with a header but a broken pixel stream. *)
Definition world_damaged_B : World :=
  with_file demo_world invalid_path
    (ImageFile (mkImage 400 500 (Damaged "image file is truncated"))).

(** Both screenshots and both preferred fonts installed. *)
Definition world_with_fonts : World :=
  with_file (with_file demo_world bold_font_path FontFile)
    regular_font_path FontFile.

(** Both screenshots in place, the output path write-protected. *)
Definition world_readonly_output : World :=
  mkWorld (files demo_world) {[comparison_path]} [].

(** Only the second screenshot in place. *)
Definition world_missing_A : World :=
  mkWorld (<[invalid_path := ImageFile shot_B]> ∅) ∅ [].

(** No file at all, and the output path write-protected. *)
Definition world_nothing : World :=
  mkWorld ∅ {[comparison_path]} [].

(** Two worlds hold the same two screenshot files. *)
Definition same_screenshots (w1 w2 : World) : Prop :=
  files w1 !! valid_path = files w2 !! valid_path ∧
  files w1 !! invalid_path = files w2 !! invalid_path.

(** Two worlds hold the same two preferred font files. *)
Definition same_fonts (w1 w2 : World) : Prop :=
  files w1 !! bold_font_path = files w2 !! bold_font_path ∧
  files w1 !! regular_font_path = files w2 !! regular_font_path.

(** Text is inked at or below the row of its anchor, never above it. *)
Definition ink_below_anchor (text_mask : Font → string → Z → Z → bool)
    : Prop :=
  ∀ font text dx dy, text_mask font text dx dy = true → 0 ≤ dy.

(** A mask with ink: every line of text is a block of 200 x 16. *)
Definition block_ink : Font → string → Z → Z → bool := λ _ _ dx dy,
  (0 <=? dx) && (dx <? 200) && (0 <=? dy) && (dy <? 16).

(** * Proofs *)

(** ** Running the monad *)

Lemma bind_Ok {A B : Type} (m : M A) (k : A → M B) w a w' :
  m w = (Ok a, w') → (m ≫= k) w = k a w'.
Proof. intros H. unfold mbind, M_bind. now rewrite H. Qed.

Lemma bind_Raised {A B : Type} (m : M A) (k : A → M B) w e w' :
  m w = (Raised e, w') → (m ≫= k) w = (Raised e, w').
Proof. intros H. unfold mbind, M_bind. now rewrite H. Qed.

Lemma Image_open_file w path im :
  files w !! path = Some (ImageFile im) → Image_open path w = (Ok im, w).
Proof. intros H. unfold Image_open. now rewrite H. Qed.

(** The font block always yields two fonts and leaves the world alone:
    the preferred pair if both files load, the built-in face twice
    otherwise. *)
Lemma load_fonts_result w :
  load_fonts w =
  (Ok (if has_font w bold_font_path && has_font w regular_font_path
       then (FreeTypeFont bold_font_path 24,
             FreeTypeFont regular_font_path 16)
       else (DefaultFont, DefaultFont)), w).
Proof.
  unfold load_fonts, try_except, has_font, mbind, M_bind, truetype.
  destruct (files w !! bold_font_path) as [[]|];
    destruct (files w !! regular_font_path) as [[]|]; reflexivity.
Qed.

(** ** The canvas that is built from two decodable screenshots *)

(** With both screenshots decodable the drawing part succeeds, leaves the
    world as it found it, and its canvas is the eight steps of the
    script in order. *)
Lemma render_comparison_decodable w A B :
  decodable w valid_path A → decodable w invalid_path B →
  ∃ fl fs,
    load_fonts w = (Ok (fl, fs), w) ∧
    render_comparison w =
    (Ok (mkCanvas (Z.max (width A) (width B)) (height A + height B + 120)
           white
           [DrawText (20, 20) title black fl;
            DrawText (20, 50) subtitle gray fs;
            DrawText (20, 80) valid_caption green fs;
            DrawText (20, 80 + 20) valid_note gray fs;
            Paste A (0, 80 + 50);
            DrawText (20, 80 + 50 + height A + 20) invalid_caption red fs;
            DrawText (20, 80 + 50 + height A + 20 + 20) invalid_note gray fs;
            Paste B (0, 80 + 50 + height A + 20 + 50)]), w).
Proof.
  intros [HA [srcA DA]] [HB [srcB DB]].
  pose proof (load_fonts_result w) as HF.
  destruct (if has_font w bold_font_path && has_font w regular_font_path
            then (FreeTypeFont bold_font_path 24,
                  FreeTypeFont regular_font_path 16)
            else (DefaultFont, DefaultFont)) as [fl fs] eqn:E.
  exists fl, fs. split; [exact HF|].
  unfold render_comparison.
  rewrite (bind_Ok _ _ _ _ _ (Image_open_file _ _ _ HA)).
  rewrite (bind_Ok _ _ _ _ _ (Image_open_file _ _ _ HB)).
  cbv zeta.
  rewrite (bind_Ok _ _ _ _ _ HF).
  unfold paste, draw_text, Image_new. rewrite DA, DB.
  reflexivity.
Qed.

Lemma decodable_decodes w path im :
  decodable w path im → decodes w path = true.
Proof. intros [H [src D]]. unfold decodes. now rewrite H, D. Qed.

Lemma decodes_decodable w path :
  decodes w path = true → ∃ im, decodable w path im.
Proof.
  unfold decodes, decodable.
  destruct (files w !! path) as [[im| |]|]; try discriminate.
  destruct (data im) as [src|why] eqn:D; try discriminate.
  intros _. exists im. split; [reflexivity|]. now exists src.
Qed.

(** If one of the screenshots does not open or does not decode, the
    drawing part raises, what it raises derives from [Exception], and the
    world is as before. *)
Lemma render_comparison_undecodable w :
  decodes w valid_path = false ∨ decodes w invalid_path = false →
  ∃ e, render_comparison w = (Raised e, w) ∧ is_Exception e = true.
Proof.
  unfold decodes, render_comparison, mbind, M_bind, Image_open.
  destruct (files w !! valid_path) as [[A| |]|];
    try (intros _; eexists; split; reflexivity).
  destruct (files w !! invalid_path) as [[B| |]|];
    try (intros _; eexists; split; reflexivity).
  cbv zeta. rewrite load_fonts_result.
  unfold paste, draw_text, Image_new.
  destruct (data A) as [srcA|whyA];
    [|intros _; eexists; split; reflexivity].
  destruct (data B) as [srcB|whyB];
    [|intros _; eexists; split; reflexivity].
  intros [H|H]; discriminate.
Qed.

(** Whatever the drawing part does, it does not touch the world, and it
    raises nothing that [except Exception] would let through. *)
Lemma render_comparison_outcome w :
  (∃ c, render_comparison w = (Ok c, w)) ∨
  (∃ e, render_comparison w = (Raised e, w) ∧ is_Exception e = true).
Proof.
  destruct (decodes w valid_path) eqn:EA;
    [|right; apply render_comparison_undecodable; now left].
  destruct (decodes w invalid_path) eqn:EB;
    [|right; apply render_comparison_undecodable; now right].
  left.
  destruct (decodes_decodable _ _ EA) as [A HA].
  destruct (decodes_decodable _ _ EB) as [B HB].
  destruct (render_comparison_decodable w A B HA HB) as (fl & fs & _ & H).
  eexists. exact H.
Qed.

(** ** The three ways through [create_comparison_image] *)

Section Outcomes.

Variable text_mask : Font → string → Z → Z → bool.

Lemma create_comparison_image_saved w c :
  render_comparison w = (Ok c, w) → comparison_path ∉ readonly w →
  create_comparison_image text_mask w =
  (Ok (Some comparison_path),
   mkWorld (<[comparison_path := ImageFile (encode text_mask c)]> (files w))
     (readonly w)
     (stdout w ++ ["Comparison image created: " +:+ comparison_path])).
Proof.
  intros H Hw.
  unfold create_comparison_image, try_except.
  rewrite (bind_Ok _ _ _ _ _ H).
  unfold mbind, M_bind, save.
  destruct (decide (comparison_path ∈ readonly w)) as [Hin|_];
    [contradiction|].
  reflexivity.
Qed.

Lemma create_comparison_image_not_saved w c :
  render_comparison w = (Ok c, w) → comparison_path ∈ readonly w →
  create_comparison_image text_mask w =
  (Ok None,
   mkWorld (files w) (readonly w)
     (stdout w ++
      ["Error creating comparison: " +:+
       "[Errno 13] Permission denied: '" +:+ comparison_path +:+ "'"])).
Proof.
  intros H Hw.
  unfold create_comparison_image, try_except.
  rewrite (bind_Ok _ _ _ _ _ H).
  unfold mbind, M_bind, save.
  destruct (decide (comparison_path ∈ readonly w)) as [_|Hout];
    [|contradiction].
  reflexivity.
Qed.

Lemma create_comparison_image_not_drawn w e :
  render_comparison w = (Raised e, w) → is_Exception e = true →
  create_comparison_image text_mask w =
  (Ok None,
   mkWorld (files w) (readonly w)
     (stdout w ++ ["Error creating comparison: " +:+ str e])).
Proof.
  intros H He.
  unfold create_comparison_image, try_except.
  rewrite (bind_Raised _ _ _ _ _ H), He.
  reflexivity.
Qed.

End Outcomes.

(** ** Worlds that differ in one screenshot *)

Lemma valid_path_ne_invalid_path : invalid_path ≠ valid_path.
Proof. discriminate. Qed.

Lemma load_fonts_with_file w f :
  fst (load_fonts (with_file w invalid_path f)) = fst (load_fonts w).
Proof.
  rewrite !load_fonts_result. unfold has_font, with_file. cbn [files fst].
  rewrite !lookup_insert_ne by discriminate. reflexivity.
Qed.

(** ** What the last paste leaves on the canvas *)

Section LastPaste.

Variable text_mask : Font → string → Z → Z → bool.

(** A canvas whose last step pastes a decoded image shows, inside the
    canvas, that image where its rectangle is and the earlier steps
    elsewhere. *)
Lemma getpixel_last_paste W H bg l im box src i j :
  data im = Decoded src →
  getpixel (encode text_mask (mkCanvas W H bg (l ++ [Paste im box]))) i j =
  if inside W H 0 0 i j
  then Some (if inside (width im) (height im) (fst box) (snd box) i j
             then src (i - fst box) (j - snd box)
             else raster_ops text_mask l (λ _ _, getrgb bg) i j)
  else None.
Proof.
  intros D. unfold getpixel, encode, raster, raster_ops.
  cbn [data width height cwidth cheight ops background].
  destruct (inside W H 0 0 i j); [|reflexivity].
  rewrite fold_left_app. cbn [fold_left paint]. rewrite D. reflexivity.
Qed.

End LastPaste.

(** * The claims *)

(** C1.  For two decodable screenshots of sizes wA x hA and wB x hB the
    canvas that is composed is max(wA, wB) wide and hA + hB + 120 high;
    for 400 x 300 and 400 x 500 that is 400 x 920. *)
Theorem C1_canvas_size w A B :
  decodable w valid_path A → decodable w invalid_path B →
  ∃ c, render_comparison w = (Ok c, w) ∧
       cwidth c = Z.max (width A) (width B) ∧
       cheight c = height A + height B + 120 ∧
       (width A = 400 → height A = 300 → width B = 400 → height B = 500 →
        cwidth c = 400 ∧ cheight c = 920).
Proof.
  intros HA HB.
  destruct (render_comparison_decodable w A B HA HB) as (fl & fs & _ & H).
  eexists. split; [exact H|]. cbn [cwidth cheight].
  repeat split; lia.
Qed.

(** C3.  Image B is pasted at row hA + 200 of a canvas that is
    hA + hB + 120 high, so its rectangle reaches 80 rows below the canvas:
    a row of B is on the canvas exactly when it is not among the last 80,
    the rows above those show in the saved composite, and the composite
    does not change when the last 80 rows of B do. *)
Theorem C3_bottom_80_rows_of_B_cut_off text_mask w A B srcB :
  decodable w valid_path A → decodable w invalid_path B →
  data B = Decoded srcB → 0 ≤ height A →
  ∃ c, render_comparison w = (Ok c, w) ∧
    last (ops c) = Some (Paste B (0, height A + 200)) ∧
    cheight c = height A + height B + 120 ∧
    (height A + 200) + height B = cheight c + 80 ∧
    (∀ r, 0 ≤ r < height B →
          (height A + 200 + r < cheight c ↔ r < height B - 80)) ∧
    (∀ i r, 0 ≤ i < width B → 0 ≤ r < height B - 80 →
            getpixel (encode text_mask c) i (height A + 200 + r)
            = Some (srcB i r)) ∧
    (∀ i r, height B - 80 ≤ r →
            getpixel (encode text_mask c) i (height A + 200 + r) = None) ∧
    (∀ B' srcB',
       width B' = width B → height B' = height B →
       data B' = Decoded srcB' →
       (∀ i r, r < height B - 80 → srcB' i r = srcB i r) →
       ∃ c', render_comparison (with_file w invalid_path (ImageFile B'))
             = (Ok c', with_file w invalid_path (ImageFile B')) ∧
             ∀ i j, getpixel (encode text_mask c') i j
                    = getpixel (encode text_mask c) i j).
Proof.
  intros HA HB DB HhA.
  destruct (render_comparison_decodable w A B HA HB) as (fl & fs & HF & H).
  eexists. split; [exact H|].
  cbn [cwidth cheight ops].
  split; [cbn [last]; do 3 f_equal; lia|].
  split; [reflexivity|].
  split; [lia|].
  split; [intros r Hr; lia|].
  match goal with
  | |- context [mkCanvas ?W ?Hh ?bg [?o1; ?o2; ?o3; ?o4; ?o5; ?o6; ?o7; ?o8]] =>
      change [o1; o2; o3; o4; o5; o6; o7; o8]
        with ([o1; o2; o3; o4; o5; o6; o7] ++ [o8])
  end.
  split; [|split].
  - intros i r Hi Hr.
    rewrite (getpixel_last_paste _ _ _ _ _ _ _ _ _ _ DB).
    unfold inside. cbn [fst snd].
    repeat match goal with
    | |- context [?a <=? ?b] => destruct (Z.leb_spec a b); try lia
    | |- context [?a <? ?b] => destruct (Z.ltb_spec a b); try lia
    end.
    cbn [andb]. do 2 f_equal; lia.
  - intros i r Hr.
    rewrite (getpixel_last_paste _ _ _ _ _ _ _ _ _ _ DB).
    unfold inside at 1.
    destruct (height A + 200 + r <? 0 + (height A + height B + 120))
      eqn:E; [lia|].
    now rewrite andb_false_r.
  - intros B' srcB' Hw Hh DB' Hagree.
    set (w' := with_file w invalid_path (ImageFile B')).
    assert (HA' : decodable w' valid_path A).
    { destruct HA as [HA1 HA2]. split; [|exact HA2].
      unfold w', with_file. cbn [files].
      rewrite lookup_insert_ne by discriminate. exact HA1. }
    assert (HB' : decodable w' invalid_path B').
    { split; [|now exists srcB'].
      unfold w', with_file. cbn [files]. apply lookup_insert_eq. }
    destruct (render_comparison_decodable w' A B' HA' HB')
      as (fl' & fs' & HF' & H').
    assert (Hfonts : (fl', fs') = (fl, fs)).
    { pose proof (load_fonts_with_file w (ImageFile B')) as E.
      fold w' in E. rewrite HF, HF' in E. cbn [fst] in E. congruence. }
    injection Hfonts as -> ->.
    eexists. split; [exact H'|].
    intros i j. rewrite Hw, Hh.
    match goal with
    | |- context [mkCanvas ?W ?Hh ?bg [?o1; ?o2; ?o3; ?o4; ?o5; ?o6; ?o7; ?o8]] =>
        change [o1; o2; o3; o4; o5; o6; o7; o8]
          with ([o1; o2; o3; o4; o5; o6; o7] ++ [o8])
    end.
    rewrite (getpixel_last_paste _ _ _ _ _ _ _ _ _ _ DB).
    rewrite (getpixel_last_paste _ _ _ _ _ _ _ _ _ _ DB').
    rewrite Hw, Hh.
    destruct (inside (Z.max (width A) (width B))
                (height A + height B + 120) 0 0 i j) eqn:Ein;
      [|reflexivity].
    f_equal. cbn [fst snd].
    destruct (inside (width B) (height B) 0
                (80 + 50 + height A + 20 + 50) i j) eqn:EB;
      [|reflexivity].
    apply Hagree. unfold inside in Ein. lia.
Qed.

(** C2, at 400 x 300 and 400 x 500.  The canvas is 920 rows high and
    image B is pasted at row 500, so its rectangle ends at row 1000 and
    does not fit: row 499 of B, which the screenshot has, would be row 999
    of the composite, which the composite does not have. *)
Theorem C2_image_B_does_not_fit_400x300_400x500 :
  ∃ c, render_comparison demo_world = (Ok c, demo_world) ∧
    cwidth c = 400 ∧ cheight c = 920 ∧
    last (ops c) = Some (Paste shot_B (0, 500)) ∧
    fits c shot_A (0, 130) = true ∧
    fits c shot_B (0, 500) = false ∧
    500 + height shot_B = 1000 ∧
    getpixel shot_B 0 499 = Some (0, 0, 243) ∧
    getpixel (encode no_ink c) 0 (500 + 499) = None.
Proof.
  eexists. split; [vm_compute; reflexivity|].
  repeat split; reflexivity.
Qed.

(** C4.  If either screenshot cannot be opened or decoded, whatever the
    reason, the drawing part raises an exception [e], and the operation
    leaves every file as it was, prints "Error creating comparison: "
    followed by the text of [e], and returns [None] without raising. *)
Theorem C4_decode_failure_gives_no_result text_mask w :
  decodes w valid_path = false ∨ decodes w invalid_path = false →
  ∃ e, render_comparison w = (Raised e, w) ∧
    create_comparison_image text_mask w =
    (Ok None,
     mkWorld (files w) (readonly w)
       (stdout w ++ ["Error creating comparison: " +:+ str e])).
Proof.
  intros H.
  destruct (render_comparison_undecodable w H) as (e & Hr & He).
  exists e. split; [exact Hr|].
  now apply create_comparison_image_not_drawn.
Qed.

(** The three causes side by side: a missing file, a file that is no
    image, and an image whose pixels do not decode.  Each run prints its
    one line and returns [None]; the files stay as they were. *)
Example missing_file_run :
  create_comparison_image no_ink world_missing_B =
  (Ok None,
   mkWorld (files world_missing_B) ∅
     ["Error creating comparison: [Errno 2] No such file or directory: '/tmp/playwright-logs/invalid-error-validation.png'"]).
Proof. reflexivity. Qed.

Example unsupported_file_run :
  create_comparison_image no_ink world_unsupported_A =
  (Ok None,
   mkWorld (files world_unsupported_A) ∅
     ["Error creating comparison: cannot identify image file '/tmp/playwright-logs/valid-error-validation.png'"]).
Proof. reflexivity. Qed.

Example damaged_file_run :
  create_comparison_image no_ink world_damaged_B =
  (Ok None,
   mkWorld (files world_damaged_B) ∅
     ["Error creating comparison: image file is truncated"]).
Proof. reflexivity. Qed.

(** C5.  The font block never raises: it returns the two preferred fonts
    when both files load and the built-in face for both handles as soon
    as one load fails, without a trace in the world.  With two decodable
    screenshots and a writable output path the operation then returns
    the output path and the output file is there, whatever the fonts. *)
Theorem C5_font_fallback_never_fails text_mask w :
  (∃ font_large font_small,
     load_fonts w = (Ok (font_large, font_small), w) ∧
     (has_font w bold_font_path && has_font w regular_font_path = true →
      font_large = FreeTypeFont bold_font_path 24 ∧
      font_small = FreeTypeFont regular_font_path 16) ∧
     (has_font w bold_font_path && has_font w regular_font_path = false →
      font_large = DefaultFont ∧ font_small = DefaultFont)) ∧
  (∀ A B,
     decodable w valid_path A → decodable w invalid_path B →
     comparison_path ∉ readonly w →
     ∃ w', create_comparison_image text_mask w
           = (Ok (Some comparison_path), w') ∧
           is_Some (files w' !! comparison_path)).
Proof.
  split.
  - pose proof (load_fonts_result w) as HF.
    destruct (has_font w bold_font_path && has_font w regular_font_path);
      eexists _, _; (split; [exact HF|]); split; intros E;
      try discriminate; now split.
  - intros A B HA HB Hw.
    destruct (render_comparison_decodable w A B HA HB) as (fl & fs & _ & H).
    eexists. split.
    + exact (create_comparison_image_saved text_mask w _ H Hw).
    + cbn [files]. rewrite lookup_insert_eq. now eexists.
Qed.

(** C6.  Image B is pasted at or below the row where image A ends, the
    vertical positions of the eight drawing steps strictly increase in
    the order in which they are placed, the running offset with them,
    and no canvas position lies in both pasted rectangles. *)
Theorem C6_sections_do_not_overlap w A B :
  decodable w valid_path A → decodable w invalid_path B → 0 ≤ height A →
  ∃ c yA yB,
    render_comparison w = (Ok c, w) ∧
    ops c !! 4%nat = Some (Paste A (0, yA)) ∧
    ops c !! 7%nat = Some (Paste B (0, yB)) ∧
    yB >= yA + height A ∧
    StronglySorted Z.lt (map op_y (ops c)) ∧
    80 < 80 + 50 + height A + 20 ∧
    (∀ i j, inside (width A) (height A) 0 yA i j = true →
            inside (width B) (height B) 0 yB i j = false).
Proof.
  intros HA HB Hh.
  destruct (render_comparison_decodable w A B HA HB) as (fl & fs & _ & H).
  eexists _, _, _. split; [exact H|].
  cbn [ops]. split; [reflexivity|]. split; [reflexivity|].
  split; [lia|]. split.
  - cbn [map op_y snd]. repeat first [lia | constructor].
  - split; [lia|]. intros i j. unfold inside. lia.
Qed.

(** C7.  With the running offset at 80, image A is pasted at column 0 and
    row offset + 50 = 130; the offset becomes offset + 50 + hA + 20, the
    second caption is written there, and image B is pasted at column 0
    and row (new offset) + 50. *)
Theorem C7_placement_follows_the_running_offset w A B :
  decodable w valid_path A → decodable w invalid_path B →
  ∃ c font_large font_small,
    render_comparison w = (Ok c, w) ∧
    load_fonts w = (Ok (font_large, font_small), w) ∧
    let y_offset := 80 in
    let y_offset' := y_offset + 50 + height A + 20 in
    ops c =
      [DrawText (20, 20) title black font_large;
       DrawText (20, 50) subtitle gray font_small;
       DrawText (20, y_offset) valid_caption green font_small;
       DrawText (20, y_offset + 20) valid_note gray font_small;
       Paste A (0, y_offset + 50);
       DrawText (20, y_offset') invalid_caption red font_small;
       DrawText (20, y_offset' + 20) invalid_note gray font_small;
       Paste B (0, y_offset' + 50)] ∧
    y_offset + 50 = 130.
Proof.
  intros HA HB.
  destruct (render_comparison_decodable w A B HA HB) as (fl & fs & HF & H).
  eexists _, fl, fs. split; [exact H|]. split; [exact HF|].
  cbv zeta. cbn [ops]. split; reflexivity.
Qed.

(** C8.  With both screenshots decodable and the output path writable the
    operation returns the output path, prints exactly
    "Comparison image created: " followed by that path, and afterwards
    the file at that path holds the composite; no other file changes. *)
Theorem C8_success_returns_path_and_writes_file text_mask w A B :
  decodable w valid_path A → decodable w invalid_path B →
  comparison_path ∉ readonly w →
  ∃ c w',
    render_comparison w = (Ok c, w) ∧
    create_comparison_image text_mask w = (Ok (Some comparison_path), w') ∧
    stdout w' =
      stdout w ++
      ["Comparison image created: /tmp/playwright-logs/error-validation-comparison.png"] ∧
    files w' !! comparison_path = Some (ImageFile (encode text_mask c)) ∧
    (∀ path, path ≠ comparison_path → files w' !! path = files w !! path).
Proof.
  intros HA HB Hw.
  destruct (render_comparison_decodable w A B HA HB) as (fl & fs & _ & H).
  eexists _, _. split; [exact H|]. split.
  - exact (create_comparison_image_saved text_mask w _ H Hw).
  - cbn [stdout files]. split; [reflexivity|]. split.
    + apply lookup_insert_eq.
    + intros path Hp. now apply lookup_insert_ne.
Qed.

(** The operation returns in every world: one of the three ways through
    it applies, and each ends in a value. *)
Lemma create_comparison_image_returns text_mask w :
  ∃ r w', create_comparison_image text_mask w = (Ok r, w').
Proof.
  destruct (render_comparison_outcome w) as [[c H]|(e & H & He)].
  - destruct (decide (comparison_path ∈ readonly w)) as [Hro|Hrw].
    + rewrite (create_comparison_image_not_saved text_mask w c H Hro).
      now eexists _, _.
    + rewrite (create_comparison_image_saved text_mask w c H Hrw).
      now eexists _, _.
  - rewrite (create_comparison_image_not_drawn text_mask w e H He).
    now eexists _, _.
Qed.

Lemma main_status text_mask w : fst (main text_mask w) = 0.
Proof.
  unfold main.
  destruct (create_comparison_image_returns text_mask w) as (r & w' & H).
  now rewrite H.
Qed.

(** C9.  The entry point runs the operation once and ends with status 0
    in every world: the operation returns, nothing it raises gets past
    its handler.  It prints one line, the success line when it returns
    the path and an error line when it returns [None].  What the drawing
    part raises, and a save that is refused, both end in [None] with the
    error line.  The exit status is the same whether the run succeeded
    or failed, so only the printed line tells the caller which it was. *)
Theorem C9_entry_point_exits_normally_either_way text_mask w :
  ∃ r w',
    create_comparison_image text_mask w = (Ok r, w') ∧
    main text_mask w = (0, w') ∧
    ((r = Some comparison_path ∧
      stdout w' =
        stdout w ++ ["Comparison image created: " +:+ comparison_path])
     ∨
     (r = None ∧
      ∃ msg,
        stdout w' = stdout w ++ ["Error creating comparison: " +:+ msg])) ∧
    (∀ e, render_comparison w = (Raised e, w) →
          r = None ∧
          stdout w' =
            stdout w ++ ["Error creating comparison: " +:+ str e]) ∧
    (comparison_path ∈ readonly w → r = None) ∧
    (∀ w2, fst (main text_mask w2) = fst (main text_mask w)).
Proof.
  pose proof (main_status text_mask) as Hstatus.
  unfold main.
  destruct (render_comparison_outcome w) as [[c H]|(e & H & He)].
  - destruct (decide (comparison_path ∈ readonly w)) as [Hro|Hrw].
    + rewrite (create_comparison_image_not_saved text_mask w c H Hro).
      eexists _, _. split; [reflexivity|]. split; [reflexivity|].
      cbn [stdout]. split; [right; split; [reflexivity | now eexists]|].
      split; [intros e He; rewrite H in He; discriminate|].
      split; [reflexivity | exact Hstatus].
    + rewrite (create_comparison_image_saved text_mask w c H Hrw).
      eexists _, _. split; [reflexivity|]. split; [reflexivity|].
      cbn [stdout]. split; [left; split; reflexivity|].
      split; [intros e He; rewrite H in He; discriminate|].
      split; [intros Hro; contradiction | exact Hstatus].
  - rewrite (create_comparison_image_not_drawn text_mask w e H He).
    eexists _, _. split; [reflexivity|]. split; [reflexivity|].
    cbn [stdout]. split; [right; split; [reflexivity | now eexists]|].
    split.
    + intros e' He'. rewrite H in He'. injection He' as <-. now split.
    + split; [reflexivity | exact Hstatus].
Qed.

(** C10.  The first two drawing steps write the title at (20, 20) in
    black with the large font and the subtitle at (20, 50) in gray with
    the small font, where the two fonts are what the font block
    returned: DejaVu Sans Bold at 24 and DejaVu Sans at 16 when both
    load. *)
Theorem C10_title_and_subtitle w A B :
  decodable w valid_path A → decodable w invalid_path B →
  ∃ c font_large font_small,
    render_comparison w = (Ok c, w) ∧
    load_fonts w = (Ok (font_large, font_small), w) ∧
    take 2 (ops c) =
      [DrawText (20, 20)
         "JSON:API Error Object Structure Validation - UI Demo"
         black font_large;
       DrawText (20, 50)
         "Comprehensive validation of error responses per JSON:API v1.1 specification"
         gray font_small] ∧
    (has_font w bold_font_path && has_font w regular_font_path = true →
     font_large = FreeTypeFont bold_font_path 24 ∧
     font_small = FreeTypeFont regular_font_path 16).
Proof.
  intros HA HB.
  destruct (render_comparison_decodable w A B HA HB) as (fl & fs & HF & H).
  eexists _, fl, fs. split; [exact H|]. split; [exact HF|].
  split; [reflexivity|].
  intros E. rewrite load_fonts_result, E in HF.
  injection HF as <- <-. now split.
Qed.

(** * The claims at 400 x 300 and 400 x 500 *)

Lemma C1_canvas_size_witness :
  decodable demo_world valid_path shot_A ∧
  decodable demo_world invalid_path shot_B ∧
  ∃ c, render_comparison demo_world = (Ok c, demo_world) ∧
       cwidth c = 400 ∧ cheight c = 920.
Proof.
  assert (HA : decodable demo_world valid_path shot_A)
    by (split; [reflexivity | eexists; reflexivity]).
  assert (HB : decodable demo_world invalid_path shot_B)
    by (split; [reflexivity | eexists; reflexivity]).
  split; [exact HA|]. split; [exact HB|].
  destruct (C1_canvas_size demo_world shot_A shot_B HA HB)
    as (c & H & _ & _ & Hsize).
  exists c. split; [exact H|].
  apply Hsize; reflexivity.
Defined.

Lemma C3_bottom_80_rows_of_B_cut_off_witness :
  decodable demo_world valid_path shot_A ∧
  decodable demo_world invalid_path shot_B ∧
  0 ≤ height shot_A ∧
  ∃ c, render_comparison demo_world = (Ok c, demo_world) ∧
       last (ops c) = Some (Paste shot_B (0, 500)) ∧
       cheight c = 920 ∧
       getpixel (encode no_ink c) 0 919 = Some (0, 0, 163) ∧
       getpixel (encode no_ink c) 0 920 = None.
Proof.
  assert (HA : decodable demo_world valid_path shot_A)
    by (split; [reflexivity | eexists; reflexivity]).
  assert (HB : decodable demo_world invalid_path shot_B)
    by (split; [reflexivity | eexists; reflexivity]).
  assert (Hh : 0 ≤ height shot_A) by (simpl; lia).
  split; [exact HA|]. split; [exact HB|]. split; [exact Hh|].
  destruct (C3_bottom_80_rows_of_B_cut_off no_ink demo_world shot_A shot_B
              (λ i j, (0, i mod 256, j mod 256)) HA HB eq_refl Hh)
    as (c & H & Hlast & Hheight & _ & _ & Hshown & Hcut & _).
  exists c. split; [exact H|]. split; [exact Hlast|].
  split; [exact Hheight|]. split.
  - apply (Hshown 0 419); simpl; lia.
  - apply (Hcut 0 420); simpl; lia.
Defined.

Lemma C4_decode_failure_gives_no_result_witness :
  decodes world_missing_B invalid_path = false ∧
  create_comparison_image no_ink world_missing_B =
  (Ok None,
   mkWorld (files world_missing_B) ∅
     ["Error creating comparison: [Errno 2] No such file or directory: '/tmp/playwright-logs/invalid-error-validation.png'"]).
Proof.
  assert (HB : decodes world_missing_B invalid_path = false)
    by reflexivity.
  split; [exact HB|].
  destruct (C4_decode_failure_gives_no_result no_ink world_missing_B
              (or_intror HB)) as (e & Hr & H).
  rewrite H. vm_compute in Hr. injection Hr as <-. reflexivity.
Defined.

Lemma C5_font_fallback_never_fails_witness :
  has_font demo_world bold_font_path = false ∧
  decodable demo_world valid_path shot_A ∧
  decodable demo_world invalid_path shot_B ∧
  (comparison_path ∉ readonly demo_world) ∧
  load_fonts demo_world = (Ok (DefaultFont, DefaultFont), demo_world) ∧
  ∃ w', create_comparison_image no_ink demo_world
        = (Ok (Some comparison_path), w') ∧
        is_Some (files w' !! comparison_path).
Proof.
  assert (HA : decodable demo_world valid_path shot_A)
    by (split; [reflexivity | eexists; reflexivity]).
  assert (HB : decodable demo_world invalid_path shot_B)
    by (split; [reflexivity | eexists; reflexivity]).
  assert (Hw : comparison_path ∉ readonly demo_world)
    by (simpl; apply not_elem_of_empty).
  split; [reflexivity|]. split; [exact HA|]. split; [exact HB|].
  split; [exact Hw|].
  destruct (C5_font_fallback_never_fails no_ink demo_world)
    as [(fl & fs & HF & _ & Hdefault) Hrun].
  destruct (Hdefault eq_refl) as [-> ->].
  split; [exact HF|].
  exact (Hrun shot_A shot_B HA HB Hw).
Defined.

Lemma C6_sections_do_not_overlap_witness :
  decodable demo_world valid_path shot_A ∧
  decodable demo_world invalid_path shot_B ∧
  0 ≤ height shot_A ∧
  ∃ c, render_comparison demo_world = (Ok c, demo_world) ∧
       ops c !! 4%nat = Some (Paste shot_A (0, 130)) ∧
       ops c !! 7%nat = Some (Paste shot_B (0, 500)) ∧
       map op_y (ops c) = [20; 50; 80; 100; 130; 450; 470; 500] ∧
       StronglySorted Z.lt (map op_y (ops c)).
Proof.
  assert (HA : decodable demo_world valid_path shot_A)
    by (split; [reflexivity | eexists; reflexivity]).
  assert (HB : decodable demo_world invalid_path shot_B)
    by (split; [reflexivity | eexists; reflexivity]).
  assert (Hh : 0 ≤ height shot_A) by (simpl; lia).
  split; [exact HA|]. split; [exact HB|]. split; [exact Hh|].
  destruct (C6_sections_do_not_overlap demo_world shot_A shot_B HA HB Hh)
    as (c & yA & yB & H & H4 & H7 & _ & Hsorted & _).
  exists c. split; [exact H|].
  vm_compute in H. injection H as <-.
  vm_compute in H4, H7. injection H4 as <-. injection H7 as <-.
  repeat split; try reflexivity. exact Hsorted.
Defined.

Lemma C7_placement_follows_the_running_offset_witness :
  decodable demo_world valid_path shot_A ∧
  decodable demo_world invalid_path shot_B ∧
  ∃ c, render_comparison demo_world = (Ok c, demo_world) ∧
       ops c =
         [DrawText (20, 20) title black DefaultFont;
          DrawText (20, 50) subtitle gray DefaultFont;
          DrawText (20, 80) valid_caption green DefaultFont;
          DrawText (20, 100) valid_note gray DefaultFont;
          Paste shot_A (0, 130);
          DrawText (20, 450) invalid_caption red DefaultFont;
          DrawText (20, 470) invalid_note gray DefaultFont;
          Paste shot_B (0, 500)].
Proof.
  assert (HA : decodable demo_world valid_path shot_A)
    by (split; [reflexivity | eexists; reflexivity]).
  assert (HB : decodable demo_world invalid_path shot_B)
    by (split; [reflexivity | eexists; reflexivity]).
  split; [exact HA|]. split; [exact HB|].
  destruct (C7_placement_follows_the_running_offset demo_world
              shot_A shot_B HA HB)
    as (c & fl & fs & H & HF & Hops & _).
  exists c. split; [exact H|].
  vm_compute in HF. injection HF as <- <-.
  rewrite Hops. reflexivity.
Defined.

Lemma C8_success_returns_path_and_writes_file_witness :
  decodable demo_world valid_path shot_A ∧
  decodable demo_world invalid_path shot_B ∧
  (comparison_path ∉ readonly demo_world) ∧
  ∃ c w',
    create_comparison_image no_ink demo_world
      = (Ok (Some comparison_path), w') ∧
    stdout w' =
      ["Comparison image created: /tmp/playwright-logs/error-validation-comparison.png"] ∧
    files w' !! comparison_path = Some (ImageFile (encode no_ink c)) ∧
    width (encode no_ink c) = 400 ∧ height (encode no_ink c) = 920.
Proof.
  assert (HA : decodable demo_world valid_path shot_A)
    by (split; [reflexivity | eexists; reflexivity]).
  assert (HB : decodable demo_world invalid_path shot_B)
    by (split; [reflexivity | eexists; reflexivity]).
  assert (Hw : comparison_path ∉ readonly demo_world)
    by (simpl; apply not_elem_of_empty).
  split; [exact HA|]. split; [exact HB|]. split; [exact Hw|].
  destruct (C8_success_returns_path_and_writes_file no_ink demo_world
              shot_A shot_B HA HB Hw)
    as (c & w' & H & Hrun & Hout & Hfile & _).
  exists c, w'. split; [exact Hrun|]. split; [exact Hout|].
  split; [exact Hfile|].
  vm_compute in H. injection H as <-. split; reflexivity.
Defined.

Lemma C9_entry_point_exits_normally_either_way_witness :
  create_comparison_image no_ink world_missing_B =
    (Ok None,
     mkWorld (files world_missing_B) ∅
       ["Error creating comparison: [Errno 2] No such file or directory: '/tmp/playwright-logs/invalid-error-validation.png'"]) ∧
  fst (main no_ink world_missing_B) = 0 ∧
  fst (main no_ink demo_world) = fst (main no_ink world_missing_B).
Proof.
  destruct (C9_entry_point_exits_normally_either_way no_ink world_missing_B)
    as (r & w' & Hrun & Hmain & _ & Hraised & _ & Hsame).
  destruct (Hraised
              (mkExn FileNotFoundError
                 "[Errno 2] No such file or directory: '/tmp/playwright-logs/invalid-error-validation.png'")
              eq_refl) as [-> Hout].
  split; [|split].
  - rewrite Hrun. f_equal.
    assert (Hw : w' = snd (create_comparison_image no_ink world_missing_B))
      by now rewrite Hrun.
    rewrite Hw. reflexivity.
  - now rewrite Hmain.
  - apply Hsame.
Defined.

Lemma C10_title_and_subtitle_witness :
  decodable world_with_fonts valid_path shot_A ∧
  decodable world_with_fonts invalid_path shot_B ∧
  ∃ c, render_comparison world_with_fonts = (Ok c, world_with_fonts) ∧
       take 2 (ops c) =
         [DrawText (20, 20) title black
            (FreeTypeFont
               "/usr/share/fonts/truetype/dejavu/DejaVuSans-Bold.ttf" 24);
          DrawText (20, 50) subtitle gray
            (FreeTypeFont
               "/usr/share/fonts/truetype/dejavu/DejaVuSans.ttf" 16)].
Proof.
  assert (HA : decodable world_with_fonts valid_path shot_A)
    by (split; [reflexivity | eexists; reflexivity]).
  assert (HB : decodable world_with_fonts invalid_path shot_B)
    by (split; [reflexivity | eexists; reflexivity]).
  split; [exact HA|]. split; [exact HB|].
  destruct (C10_title_and_subtitle world_with_fonts shot_A shot_B HA HB)
    as (c & fl & fs & H & _ & Hops & Hfonts).
  destruct (Hfonts eq_refl) as [-> ->].
  exists c. split; [exact H|]. exact Hops.
Defined.

(** * Beyond the claims *)

(** ** What the drawing part reads *)

(** The font block gives the same fonts in two worlds with the same font
    files. *)
Lemma load_fonts_same_fonts w1 w2 :
  ∃ f1 f2, load_fonts w1 = (Ok f1, w1) ∧ load_fonts w2 = (Ok f2, w2) ∧
           (same_fonts w1 w2 → f1 = f2).
Proof.
  eexists _, _. split; [apply load_fonts_result|].
  split; [apply load_fonts_result|].
  intros [F1 F2]. unfold has_font. now rewrite F1, F2.
Qed.

(** In two worlds with the same screenshot files, one of which does not
    open or decode, the drawing part raises the same exception. *)
Lemma render_comparison_raises_same w1 w2 :
  same_screenshots w1 w2 →
  decodes w2 valid_path = false ∨ decodes w2 invalid_path = false →
  ∃ e, render_comparison w1 = (Raised e, w1) ∧
       render_comparison w2 = (Raised e, w2) ∧
       is_Exception e = true.
Proof.
  intros [H1 H2].
  destruct (load_fonts_same_fonts w1 w2) as (f1 & f2 & L1 & L2 & _).
  unfold decodes, render_comparison, mbind, M_bind, Image_open. rewrite H1.
  destruct (files w2 !! valid_path) as [[A| |]|];
    try (intros _; eexists; repeat split; reflexivity).
  rewrite H2.
  destruct (files w2 !! invalid_path) as [[B| |]|];
    try (intros _; eexists; repeat split; reflexivity).
  cbv zeta. rewrite L1, L2. unfold paste.
  destruct (data A) as [srcA|whyA];
    [|intros _; eexists; repeat split; reflexivity].
  destruct (data B) as [srcB|whyB];
    [|intros _; eexists; repeat split; reflexivity].
  intros [H|H]; discriminate.
Qed.

(** In two worlds with the same screenshot files the drawing part raises
    the same exception, or succeeds in both with canvases that are equal
    when the font files are the same too. *)
Lemma render_comparison_screenshots w1 w2 :
  same_screenshots w1 w2 →
  (∃ e, render_comparison w1 = (Raised e, w1) ∧
        render_comparison w2 = (Raised e, w2) ∧
        is_Exception e = true) ∨
  (∃ c1 c2, render_comparison w1 = (Ok c1, w1) ∧
            render_comparison w2 = (Ok c2, w2) ∧
            (same_fonts w1 w2 → c1 = c2)).
Proof.
  intros Hs.
  destruct (decodes w2 valid_path) eqn:EA;
    [|left; apply render_comparison_raises_same; [exact Hs | now left]].
  destruct (decodes w2 invalid_path) eqn:EB;
    [|left; apply render_comparison_raises_same; [exact Hs | now right]].
  right.
  destruct (decodes_decodable _ _ EA) as [A [HA DA]].
  destruct (decodes_decodable _ _ EB) as [B [HB DB]].
  destruct Hs as [H1 H2].
  destruct (render_comparison_decodable w1 A B)
    as (fl1 & fs1 & L1 & R1);
    [split; [now rewrite H1 | exact DA] | split; [now rewrite H2 | exact DB] |].
  destruct (render_comparison_decodable w2 A B (conj HA DA) (conj HB DB))
    as (fl2 & fs2 & L2 & R2).
  eexists _, _. split; [exact R1|]. split; [exact R2|].
  intros F.
  destruct (load_fonts_same_fonts w1 w2) as (f1 & f2 & L1' & L2' & Hf).
  rewrite L1 in L1'. rewrite L2 in L2'.
  injection L1' as <-. injection L2' as <-.
  specialize (Hf F). injection Hf as -> ->. reflexivity.
Qed.

Lemma render_comparison_transport w1 w2 r :
  same_screenshots w1 w2 → same_fonts w1 w2 →
  render_comparison w1 = (r, w1) → render_comparison w2 = (r, w2).
Proof.
  intros Hs Hf H.
  destruct (render_comparison_screenshots w1 w2 Hs)
    as [(e & E1 & E2 & _)|(c1 & c2 & E1 & E2 & Hc)].
  - rewrite E1 in H. injection H as <-. exact E2.
  - rewrite E1 in H. injection H as <-. now rewrite (Hc Hf).
Qed.

(** ** Output that cannot be written *)

(** X1.  With both screenshots decodable and the output path not
    writable, the failure of the save is caught like a decode failure:
    the operation returns [None], prints the error line with the text of
    the permission error and no success line, leaves every file as it
    was, and the entry point still ends with status 0. *)
Theorem X1_unwritable_output_gives_no_result text_mask w A B :
  decodable w valid_path A → decodable w invalid_path B →
  comparison_path ∈ readonly w →
  create_comparison_image text_mask w =
    (Ok None,
     mkWorld (files w) (readonly w)
       (stdout w ++
        ["Error creating comparison: [Errno 13] Permission denied: '/tmp/playwright-logs/error-validation-comparison.png'"])) ∧
  fst (main text_mask w) = 0.
Proof.
  intros HA HB Hro.
  destruct (render_comparison_decodable w A B HA HB) as (fl & fs & _ & H).
  pose proof (create_comparison_image_not_saved text_mask w _ H Hro) as E.
  split; [exact E|]. unfold main. now rewrite E.
Qed.

Lemma X1_unwritable_output_gives_no_result_witness :
  decodable world_readonly_output valid_path shot_A ∧
  decodable world_readonly_output invalid_path shot_B ∧
  comparison_path ∈ readonly world_readonly_output ∧
  create_comparison_image no_ink world_readonly_output =
    (Ok None,
     mkWorld (files world_readonly_output) {[comparison_path]}
       ["Error creating comparison: [Errno 13] Permission denied: '/tmp/playwright-logs/error-validation-comparison.png'"]).
Proof.
  assert (HA : decodable world_readonly_output valid_path shot_A)
    by (split; [reflexivity | eexists; reflexivity]).
  assert (HB : decodable world_readonly_output invalid_path shot_B)
    by (split; [reflexivity | eexists; reflexivity]).
  assert (Hro : comparison_path ∈ readonly world_readonly_output)
    by (simpl; apply elem_of_singleton; reflexivity).
  split; [exact HA|]. split; [exact HB|]. split; [exact Hro|].
  exact (proj1 (X1_unwritable_output_gives_no_result no_ink
                  world_readonly_output shot_A shot_B HA HB Hro)).
Defined.

(** ** Where image A ends up *)

(** X2.  The canvas is at least as wide as either screenshot, so pasted
    at column 0 neither is cut on the right.  The rectangle of image A,
    pasted at row 130, lies within the canvas exactly when image B is at
    least 10 rows high. *)
Theorem X2_image_A_fits_iff_B_has_10_rows w A B :
  decodable w valid_path A → decodable w invalid_path B →
  ∃ c, render_comparison w = (Ok c, w) ∧
       0 + width A ≤ cwidth c ∧ 0 + width B ≤ cwidth c ∧
       (fits c A (0, 130) = true ↔ 10 ≤ height B).
Proof.
  intros HA HB.
  destruct (render_comparison_decodable w A B HA HB) as (fl & fs & _ & H).
  eexists. split; [exact H|]. unfold fits. cbn [cwidth cheight fst snd].
  split; [lia|]. split; [lia|].
  rewrite !andb_true_iff, !Z.leb_le. lia.
Qed.

Lemma X2_image_A_fits_iff_B_has_10_rows_witness :
  decodable demo_world valid_path shot_A ∧
  decodable demo_world invalid_path shot_B ∧
  ∃ c, render_comparison demo_world = (Ok c, demo_world) ∧
       fits c shot_A (0, 130) = true.
Proof.
  assert (HA : decodable demo_world valid_path shot_A)
    by (split; [reflexivity | eexists; reflexivity]).
  assert (HB : decodable demo_world invalid_path shot_B)
    by (split; [reflexivity | eexists; reflexivity]).
  split; [exact HA|]. split; [exact HB|].
  destruct (X2_image_A_fits_iff_B_has_10_rows demo_world shot_A shot_B HA HB)
    as (c & H & _ & _ & Hfits).
  exists c. split; [exact H|]. apply Hfits. simpl. lia.
Defined.

(** X3.  Nothing that is drawn after image A covers it.  If text is
    inked at or below its anchor, every pixel of image A whose row is on
    the canvas shows in the saved composite at column i and row 130 + r,
    whatever the captions of section B and image B are. *)
Theorem X3_image_A_is_not_covered text_mask w A B srcA :
  ink_below_anchor text_mask →
  decodable w valid_path A → decodable w invalid_path B →
  data A = Decoded srcA →
  ∃ c, render_comparison w = (Ok c, w) ∧
       cheight c = height A + height B + 120 ∧
       ∀ i r, 0 ≤ i < width A → 0 ≤ r < height A →
              130 + r < height A + height B + 120 →
              getpixel (encode text_mask c) i (130 + r) = Some (srcA i r).
Proof.
  intros Hink HA HB DA.
  destruct HB as [HB [srcB DB]].
  destruct (render_comparison_decodable w A B HA
              (conj HB (ex_intro _ srcB DB))) as (fl & fs & _ & H).
  eexists. split; [exact H|]. split; [reflexivity|].
  intros i r Hi Hr Hrow.
  unfold getpixel, encode, raster, raster_ops.
  cbn [data width height cwidth cheight ops background fold_left paint
       fst snd].
  rewrite DA, DB.
  assert (Hcanvas : inside (Z.max (width A) (width B))
                      (height A + height B + 120) 0 0 i (130 + r) = true)
    by (unfold inside; lia).
  assert (HinB : inside (width B) (height B) 0
                   (80 + 50 + height A + 20 + 50) i (130 + r) = false)
    by (unfold inside; lia).
  assert (HinA : inside (width A) (height A) 0 (80 + 50) i (130 + r) = true)
    by (unfold inside; lia).
  rewrite Hcanvas, HinB, HinA.
  destruct (text_mask fs invalid_note (i - 20)
              (130 + r - (80 + 50 + height A + 20 + 20))) eqn:E1;
    [apply Hink in E1; lia|].
  destruct (text_mask fs invalid_caption (i - 20)
              (130 + r - (80 + 50 + height A + 20))) eqn:E2;
    [apply Hink in E2; lia|].
  do 2 f_equal; lia.
Qed.

Lemma X3_image_A_is_not_covered_witness :
  ink_below_anchor block_ink ∧
  decodable demo_world valid_path shot_A ∧
  decodable demo_world invalid_path shot_B ∧
  ∃ c, render_comparison demo_world = (Ok c, demo_world) ∧
       getpixel (encode block_ink c) 25 (130 + 299) = Some (25, 43, 0).
Proof.
  assert (Hink : ink_below_anchor block_ink)
    by (intros font text dx dy E; unfold block_ink in E; lia).
  assert (HA : decodable demo_world valid_path shot_A)
    by (split; [reflexivity | eexists; reflexivity]).
  assert (HB : decodable demo_world invalid_path shot_B)
    by (split; [reflexivity | eexists; reflexivity]).
  split; [exact Hink|]. split; [exact HA|]. split; [exact HB|].
  destruct (X3_image_A_is_not_covered block_ink demo_world shot_A shot_B
              (λ i j, (i mod 256, j mod 256, 0)) Hink HA HB eq_refl)
    as (c & H & _ & Hshown).
  exists c. split; [exact H|].
  apply (Hshown 25 299); simpl; lia.
Defined.

(** ** Running again, and what a run leaves alone *)

Lemma same_screenshots_with_output w f out :
  same_screenshots w (mkWorld (<[comparison_path := f]> (files w))
                        (readonly w) out).
Proof.
  split; cbn [files]; now rewrite lookup_insert_ne by discriminate.
Qed.

Lemma same_fonts_with_output w f out :
  same_fonts w (mkWorld (<[comparison_path := f]> (files w))
                  (readonly w) out).
Proof.
  split; cbn [files]; now rewrite lookup_insert_ne by discriminate.
Qed.

(** X4.  A second run right after the first returns what the first
    returned, prints the same line once more and leaves the files as the
    first run left them: the output is overwritten with the same
    composite, the screenshots are read again unchanged. *)
Theorem X4_second_run_repeats_the_first text_mask w :
  let w1 := snd (create_comparison_image text_mask w) in
  let w2 := snd (create_comparison_image text_mask w1) in
  fst (create_comparison_image text_mask w1)
    = fst (create_comparison_image text_mask w) ∧
  files w2 = files w1 ∧
  ∃ line, stdout w1 = stdout w ++ [line] ∧
          stdout w2 = stdout w ++ [line; line].
Proof.
  cbv zeta.
  destruct (render_comparison_outcome w) as [[c H]|(e & H & He)].
  - destruct (decide (comparison_path ∈ readonly w)) as [Hro|Hrw].
    + rewrite (create_comparison_image_not_saved text_mask w c H Hro).
      cbn [snd fst].
      set (w1 := mkWorld (files w) (readonly w) _).
      assert (H1 : render_comparison w1 = (Ok c, w1))
        by (apply (render_comparison_transport w); [split| split|];
            solve [reflexivity | exact H]).
      rewrite (create_comparison_image_not_saved text_mask w1 c H1 Hro).
      cbn [snd fst files stdout w1]. split; [reflexivity|].
      split; [reflexivity|]. eexists. split; [reflexivity|].
      now rewrite <- app_assoc.
    + rewrite (create_comparison_image_saved text_mask w c H Hrw).
      cbn [snd fst].
      set (w1 := mkWorld _ (readonly w) _).
      assert (H1 : render_comparison w1 = (Ok c, w1)).
      { apply (render_comparison_transport w); [| |exact H].
        - apply same_screenshots_with_output.
        - apply same_fonts_with_output. }
      rewrite (create_comparison_image_saved text_mask w1 c H1 Hrw).
      cbn [snd fst files stdout w1]. split; [reflexivity|].
      split; [apply insert_insert_eq|]. eexists. split; [reflexivity|].
      now rewrite <- app_assoc.
  - rewrite (create_comparison_image_not_drawn text_mask w e H He).
    cbn [snd fst].
    set (w1 := mkWorld (files w) (readonly w) _).
    assert (H1 : render_comparison w1 = (Raised e, w1))
      by (apply (render_comparison_transport w); [split| split|];
          solve [reflexivity | exact H]).
    rewrite (create_comparison_image_not_drawn text_mask w1 e H1 He).
    cbn [snd fst files stdout w1]. split; [reflexivity|].
    split; [reflexivity|]. eexists. split; [reflexivity|].
    now rewrite <- app_assoc.
Qed.

(** X5.  In every world, whether the run succeeds or not, the two
    screenshots and the two font files are afterwards what they were
    before, no file other than the output file has changed, and the
    write protection is as it was. *)
Theorem X5_inputs_are_left_alone text_mask w :
  let w' := snd (create_comparison_image text_mask w) in
  files w' !! valid_path = files w !! valid_path ∧
  files w' !! invalid_path = files w !! invalid_path ∧
  files w' !! bold_font_path = files w !! bold_font_path ∧
  files w' !! regular_font_path = files w !! regular_font_path ∧
  readonly w' = readonly w ∧
  (∀ path, path ≠ comparison_path → files w' !! path = files w !! path).
Proof.
  cbv zeta.
  assert (Hframe :
    readonly (snd (create_comparison_image text_mask w)) = readonly w ∧
    ∀ path, path ≠ comparison_path →
      files (snd (create_comparison_image text_mask w)) !! path
      = files w !! path).
  { destruct (render_comparison_outcome w) as [[c H]|(e & H & He)].
    - destruct (decide (comparison_path ∈ readonly w)) as [Hro|Hrw].
      + rewrite (create_comparison_image_not_saved text_mask w c H Hro).
        now split.
      + rewrite (create_comparison_image_saved text_mask w c H Hrw).
        split; [reflexivity|]. intros path Hp. cbn [snd files].
        now apply lookup_insert_ne.
    - rewrite (create_comparison_image_not_drawn text_mask w e H He).
      now split. }
  destruct Hframe as [Hro Hfiles].
  repeat split; try exact Hro; try exact Hfiles;
    apply Hfiles; discriminate.
Qed.

Lemma X5_inputs_are_left_alone_witness :
  valid_path ≠ comparison_path ∧
  files (snd (create_comparison_image no_ink demo_world)) !! valid_path
  = Some (ImageFile shot_A).
Proof.
  assert (Hne : valid_path ≠ comparison_path) by discriminate.
  split; [exact Hne|].
  destruct (X5_inputs_are_left_alone no_ink demo_world)
    as (_ & _ & _ & _ & _ & Hframe).
  rewrite (Hframe valid_path Hne). reflexivity.
Defined.

(** X6.  The value returned and the line printed depend on the two
    screenshot files and on whether the output path is writable, and on
    nothing else in the world: not on the fonts, not on other files, not
    on what was printed before.  When the font files agree as well, the
    composite that is written is the same. *)
Theorem X6_outcome_depends_on_screenshots_only text_mask w1 w2 :
  same_screenshots w1 w2 →
  (comparison_path ∈ readonly w1 ↔ comparison_path ∈ readonly w2) →
  ∃ r line,
    fst (create_comparison_image text_mask w1) = Ok r ∧
    fst (create_comparison_image text_mask w2) = Ok r ∧
    stdout (snd (create_comparison_image text_mask w1))
      = stdout w1 ++ [line] ∧
    stdout (snd (create_comparison_image text_mask w2))
      = stdout w2 ++ [line] ∧
    (same_fonts w1 w2 → r = Some comparison_path →
     files (snd (create_comparison_image text_mask w1)) !! comparison_path
     = files (snd (create_comparison_image text_mask w2))
         !! comparison_path).
Proof.
  intros Hs Hro.
  destruct (render_comparison_screenshots w1 w2 Hs)
    as [(e & E1 & E2 & He)|(c1 & c2 & E1 & E2 & Hc)].
  - rewrite (create_comparison_image_not_drawn text_mask w1 e E1 He).
    rewrite (create_comparison_image_not_drawn text_mask w2 e E2 He).
    eexists _, _. repeat split. intros _ Hr. discriminate.
  - destruct (decide (comparison_path ∈ readonly w1)) as [H1|H1].
    + rewrite (create_comparison_image_not_saved text_mask w1 c1 E1 H1).
      rewrite (create_comparison_image_not_saved text_mask w2 c2 E2
                 (proj1 Hro H1)).
      eexists _, _. repeat split. intros _ Hr. discriminate.
    + assert (H2 : comparison_path ∉ readonly w2)
        by (intros H2; apply H1, Hro, H2).
      rewrite (create_comparison_image_saved text_mask w1 c1 E1 H1).
      rewrite (create_comparison_image_saved text_mask w2 c2 E2 H2).
      eexists _, _. repeat split. intros Hf _. cbn [snd files].
      rewrite !lookup_insert_eq. now rewrite (Hc Hf).
Qed.

Lemma X6_outcome_depends_on_screenshots_only_witness :
  same_screenshots demo_world world_with_fonts ∧
  (comparison_path ∈ readonly demo_world ↔
   comparison_path ∈ readonly world_with_fonts) ∧
  fst (create_comparison_image no_ink demo_world)
  = fst (create_comparison_image no_ink world_with_fonts).
Proof.
  assert (Hs : same_screenshots demo_world world_with_fonts)
    by (split; reflexivity).
  assert (Hro : comparison_path ∈ readonly demo_world ↔
                comparison_path ∈ readonly world_with_fonts)
    by (simpl; reflexivity).
  split; [exact Hs|]. split; [exact Hro|].
  destruct (X6_outcome_depends_on_screenshots_only no_ink demo_world
              world_with_fonts Hs Hro) as (r & line & R1 & R2 & _).
  now rewrite R1, R2.
Defined.

(** X7.  The first screenshot is opened first.  If the file at its path
    is not an image, or is not there, the run fails on it: the error line
    carries the text of that exception, which names the first path, and
    neither the second screenshot nor the fonts nor the output path make
    a difference. *)
Theorem X7_first_screenshot_fails_first text_mask w1 w2 :
  files w1 !! valid_path = files w2 !! valid_path →
  (∀ im, files w1 !! valid_path ≠ Some (ImageFile im)) →
  ∃ e,
    Image_open valid_path w1 = (Raised e, w1) ∧
    create_comparison_image text_mask w1 =
      (Ok None,
       mkWorld (files w1) (readonly w1)
         (stdout w1 ++ ["Error creating comparison: " +:+ str e])) ∧
    create_comparison_image text_mask w2 =
      (Ok None,
       mkWorld (files w2) (readonly w2)
         (stdout w2 ++ ["Error creating comparison: " +:+ str e])) ∧
    (files w1 !! valid_path = None →
     str e = "[Errno 2] No such file or directory: '/tmp/playwright-logs/valid-error-validation.png'") ∧
    (files w1 !! valid_path ≠ None →
     str e = "cannot identify image file '/tmp/playwright-logs/valid-error-validation.png'").
Proof.
  intros H Hno.
  unfold create_comparison_image, try_except, render_comparison,
    mbind, M_bind, Image_open.
  rewrite H in Hno |- *.
  destruct (files w2 !! valid_path) as [[im| |]|].
  - now destruct (Hno im).
  - eexists. repeat split; try reflexivity. intros E. discriminate.
  - eexists. repeat split; try reflexivity. intros E. discriminate.
  - eexists. repeat split; try reflexivity. intros E. now destruct E.
Qed.

Lemma X7_first_screenshot_fails_first_witness :
  files world_missing_A !! valid_path = files world_nothing !! valid_path ∧
  (∀ im, files world_missing_A !! valid_path ≠ Some (ImageFile im)) ∧
  create_comparison_image no_ink world_missing_A =
    (Ok None,
     mkWorld (files world_missing_A) ∅
       ["Error creating comparison: [Errno 2] No such file or directory: '/tmp/playwright-logs/valid-error-validation.png'"]) ∧
  create_comparison_image no_ink world_nothing =
    (Ok None,
     mkWorld ∅ {[comparison_path]}
       ["Error creating comparison: [Errno 2] No such file or directory: '/tmp/playwright-logs/valid-error-validation.png'"]).
Proof.
  assert (H : files world_missing_A !! valid_path
              = files world_nothing !! valid_path) by reflexivity.
  assert (Hno : ∀ im, files world_missing_A !! valid_path
                      ≠ Some (ImageFile im))
    by (intros im E; vm_compute in E; discriminate).
  split; [exact H|]. split; [exact Hno|].
  destruct (X7_first_screenshot_fails_first no_ink world_missing_A
              world_nothing H Hno) as (e & _ & R1 & R2 & Hmsg & _).
  rewrite R1, R2, (Hmsg eq_refl). split; reflexivity.
Defined.

(** ** The background *)

(** X8.  The canvas starts white and stays white wherever nothing is
    put: a position of the canvas that lies in neither pasted rectangle
    and is inked by none of the six lines of text is white in the saved
    composite. *)
Theorem X8_untouched_canvas_is_white text_mask w A B :
  decodable w valid_path A → decodable w invalid_path B →
  ∃ c, render_comparison w = (Ok c, w) ∧
    ∀ i j,
      inside (cwidth c) (cheight c) 0 0 i j = true →
      inside (width A) (height A) 0 130 i j = false →
      inside (width B) (height B) 0 (height A + 200) i j = false →
      (∀ xy text fill font,
         DrawText xy text fill font ∈ ops c →
         text_mask font text (i - fst xy) (j - snd xy) = false) →
      getpixel (encode text_mask c) i j = Some (255, 255, 255).
Proof.
  intros [HA [srcA DA]] [HB [srcB DB]].
  destruct (render_comparison_decodable w A B
              (conj HA (ex_intro _ srcA DA)) (conj HB (ex_intro _ srcB DB)))
    as (fl & fs & _ & H).
  eexists. split; [exact H|].
  cbn [cwidth cheight ops]. intros i j Hcanvas HoutA HoutB Hdry.
  unfold getpixel, encode, raster, raster_ops.
  cbn [data width height cwidth cheight ops background fold_left paint
       fst snd].
  rewrite DA, DB, Hcanvas.
  assert (T0 : text_mask fl title (i - 20) (j - 20) = false)
    by (apply (Hdry (20, 20) title black fl); repeat constructor).
  assert (T1 : text_mask fs subtitle (i - 20) (j - 50) = false)
    by (apply (Hdry (20, 50) subtitle gray fs); repeat constructor).
  assert (T2 : text_mask fs valid_caption (i - 20) (j - 80) = false)
    by (apply (Hdry (20, 80) valid_caption green fs); repeat constructor).
  assert (T3 : text_mask fs valid_note (i - 20) (j - (80 + 20)) = false)
    by (apply (Hdry (20, 80 + 20) valid_note gray fs); repeat constructor).
  assert (T5 : text_mask fs invalid_caption (i - 20)
                 (j - (80 + 50 + height A + 20)) = false)
    by (apply (Hdry (20, 80 + 50 + height A + 20) invalid_caption red fs);
        repeat constructor).
  assert (T6 : text_mask fs invalid_note (i - 20)
                 (j - (80 + 50 + height A + 20 + 20)) = false)
    by (apply (Hdry (20, 80 + 50 + height A + 20 + 20) invalid_note gray fs);
        repeat constructor).
  rewrite T0, T1, T2, T3, T5, T6.
  replace (80 + 50 + height A + 20 + 50) with (height A + 200) by lia.
  change (80 + 50) with 130.
  rewrite HoutA, HoutB.
  reflexivity.
Qed.

(** The canvas of the two screenshots of 400 x 300 and 400 x 500 when no
    font is installed. *)
Lemma demo_world_canvas c :
  render_comparison demo_world = (Ok c, demo_world) →
  c = mkCanvas 400 920 white
        [DrawText (20, 20) title black DefaultFont;
         DrawText (20, 50) subtitle gray DefaultFont;
         DrawText (20, 80) valid_caption green DefaultFont;
         DrawText (20, 100) valid_note gray DefaultFont;
         Paste shot_A (0, 130);
         DrawText (20, 450) invalid_caption red DefaultFont;
         DrawText (20, 470) invalid_note gray DefaultFont;
         Paste shot_B (0, 500)].
Proof.
  intros H.
  assert (HA : decodable demo_world valid_path shot_A)
    by (split; [reflexivity | eexists; reflexivity]).
  assert (HB : decodable demo_world invalid_path shot_B)
    by (split; [reflexivity | eexists; reflexivity]).
  destruct (render_comparison_decodable demo_world shot_A shot_B HA HB)
    as (fl & fs & HF & Hc).
  rewrite Hc in H. injection H as <-.
  rewrite load_fonts_result in HF. injection HF as <- <-.
  reflexivity.
Qed.

Lemma X8_untouched_canvas_is_white_witness :
  decodable demo_world valid_path shot_A ∧
  decodable demo_world invalid_path shot_B ∧
  ∃ c, render_comparison demo_world = (Ok c, demo_world) ∧
       getpixel (encode block_ink c) 300 10 = Some (255, 255, 255).
Proof.
  assert (HA : decodable demo_world valid_path shot_A)
    by (split; [reflexivity | eexists; reflexivity]).
  assert (HB : decodable demo_world invalid_path shot_B)
    by (split; [reflexivity | eexists; reflexivity]).
  split; [exact HA|]. split; [exact HB|].
  destruct (X8_untouched_canvas_is_white block_ink demo_world
              shot_A shot_B HA HB) as (c & H & Hwhite).
  exists c. split; [exact H|].
  pose proof (demo_world_canvas c H) as Hc.
  apply Hwhite.
  - rewrite Hc. reflexivity.
  - reflexivity.
  - reflexivity.
  - intros xy text fill font Hin. rewrite Hc in Hin. cbn [ops] in Hin.
    repeat (apply elem_of_cons in Hin; destruct Hin as [Hin|Hin];
            [first [discriminate Hin
                   | injection Hin as -> _ _ _; reflexivity]|]).
    now apply elem_of_nil in Hin.
Defined.
